(** * recipe-chatbot: the agent wrapper of [backend/utils.py]

    A shallow embedding of [get_agent_response] and of the module-level
    configuration it reads, followed by the properties of the conversation
    responder.

    The development has three layers:
    - [Py]: the fragment of Python the function relies on (text as sequences
      of code points, [str.strip], subscripting of dynamically typed values,
      exceptions);
    - the value-level model of the module, where a transcript is the list of
      its dictionaries and the outbound call is recorded on a wire;
    - [Heap]: the object-level model, where lists and dictionaries live in a
      store and are passed by reference, used for the frame properties. *)

From Stdlib Require Import String Ascii NArith ZArith Lia.
From stdpp Require Import gmap list.

Local Open Scope list_scope.

(** ** Python values *)

Module Py.

(** A Python [str] is a sequence of Unicode code points. *)
Definition str := list N.

(** An ASCII literal of the source, as a [str]. *)
Definition lit (s : string) : str :=
  map N_of_ascii (list_ascii_of_string s).

(** [str.isspace] on one code point: the characters CPython classifies as
    whitespace, which are the ones [str.strip()] removes. *)
Definition isspace (c : N) : bool :=
  ((9 <=? c) && (c <=? 13)          (* \t \n \v \f \r *)
   || (28 <=? c) && (c <=? 32)      (* FS GS RS US and the space *)
   || (c =? 133) || (c =? 160)      (* NEL, no-break space *)
   || (c =? 5760)                   (* U+1680 *)
   || (8192 <=? c) && (c <=? 8202)  (* U+2000 .. U+200A *)
   || (c =? 8232) || (c =? 8233)    (* line and paragraph separators *)
   || (c =? 8239) || (c =? 8287)    (* U+202F, U+205F *)
   || (c =? 12288))%N.              (* U+3000 *)

(** [s.lstrip()]: skip the leading run of whitespace. *)
Fixpoint lstrip (s : str) : str :=
  match s with
  | [] => []
  | c :: s' => if isspace c then lstrip s' else s
  end.

(** [s.rstrip()]: drop the trailing run of whitespace. *)
Definition rstrip (s : str) : str := reverse (lstrip (reverse s)).

(** [s.strip()]: CPython advances the left index first, then moves the right
    index down to it. *)
Definition strip (s : str) : str := rstrip (lstrip s).

(** The dynamically typed values a completion response is made of. *)
#[warnings="-register-all"]
Inductive pyval :=
| VNone
| VBool (b : bool)
| VInt (z : Z)
| VStr (s : str)
| VList (items : list pyval)
| VDict (d : gmap str pyval).

(** The exceptions that can leave [get_agent_response]. *)
Inductive exn :=
| KeyError (key : pyval)           (* [d[k]] with [k] not in [d] *)
| IndexError                       (* [seq[i]] out of range *)
| TypeError                        (* subscript on a value without it *)
| AttributeError (attr : str)      (* [v.attr] on a value without it *)
| SystemError                      (* broken interpreter invariant *)
| ProviderError (kind detail : str). (* raised by the completion provider *)

Inductive result (A : Type) :=
| Ok (a : A)
| Raise (e : exn).
Arguments Ok {A} a.
Arguments Raise {A} e.

Definition rbind {A B} (r : result A) (k : A -> result B) : result B :=
  match r with
  | Ok a => k a
  | Raise e => Raise e
  end.

(** [d[k]] on a [Dict[str, str]]. *)
Definition dict_getitem (d : gmap str str) (k : str) : result str :=
  match d !! k with
  | Some v => Ok v
  | None => Raise (KeyError (VStr k))
  end.

(** [v[k]] for a [str] key [k]. *)
Definition getitem_str (v : pyval) (k : str) : result pyval :=
  match v with
  | VDict d =>
      match d !! k with
      | Some x => Ok x
      | None => Raise (KeyError (VStr k))
      end
  | _ => Raise TypeError
  end.

(** [v[i]] for a non-negative integer index [i]. *)
Definition getitem_int (v : pyval) (i : nat) : result pyval :=
  match v with
  | VList items =>
      match items !! i with
      | Some x => Ok x
      | None => Raise IndexError
      end
  | VStr s =>
      match s !! i with
      | Some c => Ok (VStr [c])
      | None => Raise IndexError
      end
  | VDict _ => Raise (KeyError (VInt (Z.of_nat i)))
  | _ => Raise TypeError
  end.

(** [v.strip()]. *)
Definition call_strip (v : pyval) : result str :=
  match v with
  | VStr s => Ok (strip s)
  | _ => Raise (AttributeError (lit "strip"))
  end.

End Py.
Export Py.

(** ** Constants of the module *)

Definition dquote : str := [34%N].
Definition newline : N := 10%N.

(** The lines of the instruction text once [textwrap.dedent] has removed the
    common margin of four spaces and emptied the lines made of spaces only.
    The literal opens with a line break, hence the empty first line. *)
Definition SYSTEM_PROMPT_lines : list str :=
  [
    lit "";
    lit "You are a friendly culinary assistant skilled at helping normal folks ";
    lit "create interesting meals at home. Unless otherwise specified, assume your";
    lit "users are in a large city in the United States.";
    lit "";
    lit "## Content";
    lit "";
    lit "Always provide ingredient lists with precise measurements in the correct units for";
    lit "their location. For example, Americans use imperial measurements while the French";
    lit "would use metric units.";
    lit "";
    lit "Always use culturally appropriate measures. For example, Americans measure flour by";
    lit "volume while Europeans use weight.";
    lit "";
    lit "Never use offensive or derogatory language.";
    lit "";
    lit "If a user asks for a recipe that is unsafe, unethical, or promotes harmful activities, politely.";
    lit "";
    lit "Present only one recipe at a time.";
    lit "";
    lit "If the user doesn't specify what ingredients they have on-hand, assume they are";
    lit "willing to shop on their way home. If they live in a large city, they most likely have";
    lit "access to semi-exotic spices and " ++ dquote ++ lit "ethnic" ++ dquote ++ lit " ingredients.";
    lit "";
    lit "Be descriptive in the steps of the recipe, so it is easy to follow.";
    lit "";
    lit "You MUST suggest a complete recipe, do not require a back-and-forth before";
    lit "fully answering the user.";
    lit "";
    lit "After you list your recipe, provide suggestions for tweaks or directions for alternatives";
    lit "for people dissatisfied with the recipe. For example, if a recipe includes a long baking";
    lit "session you might offer to provide a less time-intensive recipe, or if suggesting exotic";
    lit "ingredients mention what might be skipped or substituted or similar recipes with more";
    lit "traditional ingredients.";
    lit "";
    lit "Take a free hand in the recipes you suggest: some night you just want to roast some";
    lit "potatoes, while other times you might want pad kra pow. Every recipe must be reasonable for";
    lit "a single person to prepare.";
    lit "";
    lit "Mention the serving size in the recipe. If not specified, assume 2 people.";
    lit "";
    lit "## Formatting";
    lit "";
    lit "Structure all recipes as Markdown.";
    lit "";
    lit "Begin every recipe response with the recipe name as a Level 2 Heading (e.g., `## Amazing Blueberry Muffins`)";
    lit "";
    lit "Immediately follow with a brief, enticing description of the dish (1-3 sentences)";
    lit "";
    lit "Next, include a section titled `### Ingredients`. List all ingredients using a Markdown unordered list (bullet points).";
    lit "";
    lit "Following ingredients, include a section titled `### Instructions`. Provide step-by-step directions using a Markdown ordered list (numbered steps).";
    lit "";
    lit "Optionally, if relevant, add a `### Notes`, `### Tips`, or `### Variations` section for extra advice or alternatives.";
    lit "";
    lit "**Example of desired Markdown structure for a recipe response**:";
    lit "";
    lit "```markdown";
    lit "## Golden Pan-Fried Salmon";
    lit "";
    lit "A quick and delicious way to prepare salmon with a crispy skin and moist interior, perfect for a weeknight dinner.";
    lit "";
    lit "### Ingredients";
    lit "* 2 salmon fillets (approx. 6oz each, skin-on)";
    lit "* 1 tbsp olive oil";
    lit "* Salt, to taste";
    lit "* Black pepper, to taste";
    lit "* 1 lemon, cut into wedges (for serving)";
    lit "";
    lit "### Instructions";
    lit "1. Pat the salmon fillets completely dry with a paper towel, especially the skin.";
    lit "2. Season both sides of the salmon with salt and pepper.";
    lit "3. Heat olive oil in a non-stick skillet over medium-high heat until shimmering.";
    lit "4. Place salmon fillets skin-side down in the hot pan.";
    lit "5. Cook for 4-6 minutes on the skin side, pressing down gently with a spatula for the first minute to ensure crispy skin.";
    lit "6. Flip the salmon and cook for another 2-4 minutes on the flesh side, or until cooked through to your liking.";
    lit "7. Serve immediately with lemon wedges.";
    lit "";
    lit "### Tips";
    lit "* For extra flavor, add a clove of garlic (smashed) and a sprig of rosemary to the pan while cooking.";
    lit "* Ensure the pan is hot before adding the salmon for the best sear.";
    lit "```"
  ].

(** Every line of the literal, the last one included, ends with a line
    break. *)
Definition SYSTEM_PROMPT : str :=
  List.concat (map (fun l => l ++ [newline]) SYSTEM_PROMPT_lines).

(** [{"role": r, "content": c}] *)
Definition turn (r c : str) : gmap str str :=
  {[ lit "role" := r; lit "content" := c ]}.

(** The dictionary [{"role": "system", "content": SYSTEM_PROMPT}]. *)
Definition system_turn : gmap str str := turn (lit "system") SYSTEM_PROMPT.

(** ** The world around the module *)

(** A transcript by value: the dictionaries of its turns, in order. *)
Abbreviation transcript := (list (gmap str str)).

(** One request to the completion provider, as it leaves the process. *)
Record call := Call {
  call_model : str;
  call_messages : transcript
}.

Definition loc := positive.

(** What the code can observe or change: the process environment
    ([os.environ]), the requests sent so far, and the objects of the
    interpreter (dictionaries and lists, by identity).  The value-level model
    below never looks at the objects; the model of [Heap] does. *)
Record world := World {
  environ : gmap str str;
  wire : list call;
  dicts : gmap loc (gmap str str);
  lists : gmap loc (list loc)
}.

Definition set_environ (e : gmap str str) (w : world) : world :=
  World e (wire w) (dicts w) (lists w).
Definition send (c : call) (w : world) : world :=
  World (environ w) (wire w ++ [c]) (dicts w) (lists w).

(** Computations that read and change the world and may raise; what was done
    before an exception stays done. *)
Definition M (A : Type) : Type := world -> result A * world.

Definition ret {A} (a : A) : M A := fun w => (Ok a, w).
Definition raise {A} (e : exn) : M A := fun w => (Raise e, w).
Definition bind {A B} (m : M A) (k : A -> M B) : M B :=
  fun w =>
    match m w with
    | (Ok a, w') => k a w'
    | (Raise e, w') => (Raise e, w')
    end.
Definition lift {A} (r : result A) : M A := fun w => (r, w).

Declare Scope py_scope.
Delimit Scope py_scope with py.
Notation "x <- c ;; k" := (bind c (fun x => k))
  (at level 100, c at next level, right associativity) : py_scope.
Notation "x <~ c ;; k" := (rbind c (fun x => k))
  (at level 100, c at next level, right associativity) : py_scope.
Local Open Scope py_scope.

(** [completion["choices"][0]["message"]["content"].strip()] *)
Definition reply_content (completion : pyval) : result str :=
  choices <~ getitem_str completion (lit "choices") ;;
  choice <~ getitem_int choices 0 ;;
  message <~ getitem_str choice (lit "message") ;;
  content <~ getitem_str message (lit "content") ;;
  call_strip content.

(** The globals the module defines when it is imported, next to the constant
    [SYSTEM_PROMPT]. *)
Record globals := Globals {
  MODEL_NAME : str
}.

Section Utils.

(** [load_dotenv(override=False)] of python-dotenv, as the change it makes to
    [os.environ]. *)
Variable load_dotenv : gmap str str -> gmap str str.

(** The completion provider behind [litellm.completion]: what it answers to a
    model identifier and a transcript. It is not part of this program. *)
Variable provider : str -> transcript -> result pyval.

(** [os.environ.get(key, dflt)] *)
Definition os_environ_get (key dflt : str) : M str :=
  fun w => (Ok (default dflt (environ w !! key)), w).

(** The statements the module runs when it is imported. *)
Definition import_utils : M globals :=
  _ <- (fun w => (Ok tt, set_environ (load_dotenv (environ w)) w)) ;;
  model_name <- os_environ_get (lit "MODEL_NAME") (lit "gpt-4o-mini") ;;
  ret (Globals model_name).

(** [litellm.completion(model=..., messages=...)]: one request on the wire,
    answered by the provider. *)
Definition litellm_completion (model : str) (messages : transcript) : M pyval :=
  fun w => (provider model messages, send (Call model messages) w).

(** [not messages or messages[0]["role"] != "system"] *)
Definition lacks_system_turn (messages : transcript) : result bool :=
  match messages with
  | [] => Ok true
  | first :: _ =>
      role <~ dict_getitem first (lit "role") ;;
      Ok (bool_decide (role ≠ lit "system"))
  end.

(** The branch that makes the system prompt the first message. *)
Definition ensure_system_prompt (messages : transcript) : result transcript :=
  prepend <~ lacks_system_turn messages ;;
  if prepend : bool then Ok ([system_turn] ++ messages) else Ok messages.

Definition get_agent_response (G : globals) (messages : transcript)
  : M transcript :=
  current_messages <- lift (ensure_system_prompt messages) ;;
  completion <- litellm_completion (MODEL_NAME G) current_messages ;;
  assistant_reply_content <- lift (reply_content completion) ;;
  let updated_messages :=
    current_messages ++ [turn (lit "assistant") assistant_reply_content] in
  ret updated_messages.

End Utils.

(** ** The object-level model

    Python passes lists and dictionaries by reference.  Here [messages] is the
    identity of a list object whose items are identities of dictionary
    objects, as the annotation [List[Dict[str, str]]] has it; text is
    immutable and stays a value. *)

Module Heap.

Definition set_dicts (d : gmap loc (gmap str str)) (w : world) : world :=
  World (environ w) (wire w) d (lists w).
Definition set_lists (l : gmap loc (list loc)) (w : world) : world :=
  World (environ w) (wire w) (dicts w) l.

(** A dictionary display [{...}] makes a new object. *)
Definition new_dict (d : gmap str str) : M loc :=
  fun w =>
    let a := fresh (dom (dicts w)) in
    (Ok a, set_dicts (<[a := d]> (dicts w)) w).

(** A list display [[...]], or the result of [+], is a new object. *)
Definition new_list (items : list loc) : M loc :=
  fun w =>
    let a := fresh (dom (lists w)) in
    (Ok a, set_lists (<[a := items]> (lists w)) w).

(** Reading through a reference.  A reference the interpreter hands out
    always has its object; the other case is there to make the model total. *)
Definition load_dict (a : loc) : M (gmap str str) :=
  fun w =>
    match dicts w !! a with
    | Some d => (Ok d, w)
    | None => (Raise SystemError, w)
    end.

Definition load_list (a : loc) : M (list loc) :=
  fun w =>
    match lists w !! a with
    | Some items => (Ok items, w)
    | None => (Raise SystemError, w)
    end.

(** [xs + ys] on lists: a new list, the operands are left as they are. *)
Definition list_add (xs ys : loc) : M loc :=
  l <- load_list xs ;;
  r <- load_list ys ;;
  new_list (l ++ r).

(** The transcript a list object stands for. *)
Definition transcript_at (w : world) (a : loc) : option transcript :=
  items ← lists w !! a; mapM (fun d => dicts w !! d) items.

Section Utils.

Variable provider : str -> transcript -> result pyval.

(** The request carries the contents of the list at the time of the call. *)
Definition litellm_completion (model : str) (messages : loc) : M pyval :=
  fun w =>
    match transcript_at w messages with
    | Some t => (provider model t, send (Call model t) w)
    | None => (Raise SystemError, w)
    end.

(** [not messages or messages[0]["role"] != "system"] *)
Definition lacks_system_turn (messages : loc) : M bool :=
  items <- load_list messages ;;
  match items with
  | [] => ret true
  | first :: _ =>
      d <- load_dict first ;;
      role <- lift (dict_getitem d (lit "role")) ;;
      ret (bool_decide (role ≠ lit "system"))
  end.

(** The branch that makes the system prompt the first message: a new list in
    the first case, the caller's own list in the second. *)
Definition ensure_system_prompt (messages : loc) : M loc :=
  prepend <- lacks_system_turn messages ;;
  if prepend : bool then
    d <- new_dict system_turn ;;
    l <- new_list [d] ;;
    list_add l messages
  else ret messages.

Definition get_agent_response (G : globals) (messages : loc) : M loc :=
  current_messages <- ensure_system_prompt messages ;;
  completion <- litellm_completion (MODEL_NAME G) current_messages ;;
  assistant_reply_content <- lift (reply_content completion) ;;
  d <- new_dict (turn (lit "assistant") assistant_reply_content) ;;
  l <- new_list [d] ;;
  updated_messages <- list_add current_messages l ;;
  ret updated_messages.

End Utils.

End Heap.

(** ** Vocabulary of the specification *)

Definition role_of (m : gmap str str) : option str := m !! lit "role".
Definition content_of (m : gmap str str) : option str := m !! lit "content".

(** The first turn, when there is one, has a role. *)
Definition first_has_role (T : transcript) : Prop :=
  match T with
  | [] => True
  | m :: _ => is_Some (role_of m)
  end.

(** [T[0].role == "system"] *)
Definition starts_with_system (T : transcript) : Prop :=
  match T with
  | [] => False
  | m :: _ => role_of m = Some (lit "system")
  end.

(** [T] is empty or [T[0].role != "system"]. *)
Definition starts_without_system (T : transcript) : Prop :=
  match T with
  | [] => True
  | m :: _ => exists r, role_of m = Some r /\ r <> lit "system"
  end.

(** The system-normalized transcript in the words of the specification:
    prepend the default system turn if the transcript is empty or its first
    role is not "system", otherwise use the transcript unchanged. *)
Definition normalized (T : transcript) : transcript :=
  match T with
  | [] => system_turn :: T
  | m :: _ =>
      if decide (role_of m = Some (lit "system")) then T else system_turn :: T
  end.

(** The turns of a transcript whose role is "system". *)
Definition system_turns (T : transcript) : transcript :=
  filter (fun m => role_of m = Some (lit "system")) T.

Definition whitespace (s : str) : Prop := Forall (fun c => isspace c = true) s.

(** [s] is [raw] without its leading and trailing whitespace. *)
Definition trimmed_of (raw s : str) : Prop :=
  exists pre post,
    raw = pre ++ s ++ post /\ whitespace pre /\ whitespace post /\
    (forall c, head s = Some c -> isspace c = false) /\
    (forall c, last s = Some c -> isspace c = false).

(** The response [{choices: [{message: {content: v}}]}], with nothing else
    in it. *)
Definition completion_of (v : pyval) : pyval :=
  VDict {[ lit "choices" :=
    VList [VDict {[ lit "message" := VDict {[ lit "content" := v ]} ]}] ]}.

(** [v] is the content of the message of the top choice of [c]. *)
Definition top_content (c v : pyval) : Prop :=
  exists d dc rest dm,
    c = VDict d /\
    d !! lit "choices" = Some (VList (VDict dc :: rest)) /\
    dc !! lit "message" = Some (VDict dm) /\
    dm !! lit "content" = Some v.

(** Every object of [w] is still there, unchanged, in [w']. *)
Definition objects_kept (w w' : world) : Prop :=
  (forall a d, dicts w !! a = Some d -> dicts w' !! a = Some d) /\
  (forall a l, lists w !! a = Some l -> lists w' !! a = Some l).

(** Nothing that was there has been changed on the way from [w] to [w']:
    every object is as it was, and so is the environment. *)
Definition kept (w w' : world) : Prop :=
  objects_kept w w' /\ environ w' = environ w.

(** The transcript a sequence of dictionary objects stands for. *)
Definition turns_at (w : world) (items : list loc) : option transcript :=
  mapM (fun d => dicts w !! d) items.

(** The objects at [new] did not exist in [w]. *)
Definition made_after (w : world) (new : list loc) : Prop :=
  Forall (fun a => dicts w !! a = None) new.

(** Responses without a usable completion, each with the exception its
    access raises: an empty list of choices, a top message without a content
    field, a content that is [None]. *)
Inductive unusable : pyval -> exn -> Prop :=
| no_choices d :
    d !! lit "choices" = Some (VList []) ->
    unusable (VDict d) IndexError
| no_content d dc rest dm :
    d !! lit "choices" = Some (VList (VDict dc :: rest)) ->
    dc !! lit "message" = Some (VDict dm) ->
    dm !! lit "content" = None ->
    unusable (VDict d) (KeyError (VStr (lit "content")))
| null_content c :
    top_content c VNone ->
    unusable c (AttributeError (lit "strip")).

(** Sample values used in the examples. *)
Definition gpt_4o_mini : globals := Globals (lit "gpt-4o-mini").
Definition no_objects (env : gmap str str) : world := World env [] ∅ ∅.
Definition hello_provider : str -> transcript -> result pyval :=
  fun _ _ => Ok (completion_of (VStr (lit " Hello! "))).
Definition empty_provider : str -> transcript -> result pyval :=
  fun _ _ => Ok (completion_of (VStr [])).
Definition no_choices_provider : str -> transcript -> result pyval :=
  fun _ _ => Ok (VDict {[ lit "choices" := VList [] ]}).
Definition failing_provider : str -> transcript -> result pyval :=
  fun _ _ => Raise (ProviderError (lit "AuthenticationError") (lit "invalid api key")).
Definition user_hi : gmap str str := turn (lit "user") (lit "hi").
Definition custom_system : gmap str str :=
  turn (lit "system") (lit "custom instructions").

(** Worlds in which list 1 holds the transcripts of the examples. *)
Definition custom_world : world :=
  World ∅ [] {[ 1%positive := custom_system; 2%positive := user_hi ]}
             {[ 1%positive := [1%positive; 2%positive] ]}.
Definition user_world : world :=
  World ∅ [] {[ 1%positive := user_hi ]} {[ 1%positive := [1%positive] ]}.


(** More sample values: a dictionary without "role", and a response with
    other fields, a second choice and other whitespace around the text. *)
Definition roleless : gmap str str := {[ lit "content" := lit "hi" ]}.
Definition roleless_world : world :=
  World ∅ [] {[ 1%positive := roleless ]} {[ 1%positive := [1%positive] ]}.
Definition verbose_completion : pyval :=
  VDict {[ lit "id" := VStr (lit "chatcmpl-1");
           lit "choices" := VList [
             VDict {[ lit "index" := VInt 0;
                      lit "message" := VDict {[
                        lit "role" := VStr (lit "assistant");
                        lit "content" := VStr ([10; 9]%N ++ lit "Hello!  ") ]} ]};
             VDict {[ lit "index" := VInt 1;
                      lit "message" := VDict {[
                        lit "content" := VStr (lit "other") ]} ]} ] ]}.
Definition verbose_provider : str -> transcript -> result pyval :=
  fun _ _ => Ok verbose_completion.
Definition blank_provider : str -> transcript -> result pyval :=
  fun _ _ => Ok (completion_of (VStr (lit "  "))).

(** ** Properties of [str.strip] *)

Section Strip.

Lemma lstrip_whitespace (s : str) : whitespace s -> lstrip s = [].
Proof.
  induction 1 as [|c s Hc _ IH]; simpl; [reflexivity|].
  rewrite Hc. exact IH.
Qed.

Lemma lstrip_app_whitespace (pre s : str) :
  whitespace pre -> lstrip (pre ++ s) = lstrip s.
Proof.
  induction 1 as [|c pre Hc _ IH]; simpl; [reflexivity|].
  rewrite Hc. exact IH.
Qed.

Lemma lstrip_fixed (s : str) :
  (forall c, head s = Some c -> isspace c = false) -> lstrip s = s.
Proof.
  destruct s as [|c s]; simpl; [reflexivity|].
  intros H. rewrite (H c eq_refl). reflexivity.
Qed.

Lemma lstrip_split (s : str) :
  exists pre, s = pre ++ lstrip s /\ whitespace pre.
Proof.
  induction s as [|c s [pre [Hs Hpre]]]; simpl.
  - exists []. split; [reflexivity | constructor].
  - destruct (isspace c) eqn:Hc.
    + exists (c :: pre). split; [simpl; congruence | constructor; assumption].
    + exists []. split; [reflexivity | constructor].
Qed.

Lemma lstrip_head (s : str) (c : N) :
  head (lstrip s) = Some c -> isspace c = false.
Proof.
  induction s as [|x s IH]; simpl; [discriminate|].
  destruct (isspace x) eqn:Hx; [exact IH|].
  simpl. intros [= <-]. exact Hx.
Qed.

Lemma whitespace_rev (s : str) : whitespace s -> whitespace (reverse s).
Proof. unfold whitespace. by rewrite Forall_reverse. Qed.

Lemma rstrip_split (s : str) :
  exists post, s = rstrip s ++ post /\ whitespace post.
Proof.
  unfold rstrip. destruct (lstrip_split (reverse s)) as [pre [Hs Hpre]].
  exists (reverse pre). split; [|by apply whitespace_rev].
  rewrite <- reverse_app, <- Hs. by rewrite reverse_involutive.
Qed.

Lemma rstrip_last (s : str) (c : N) :
  last (rstrip s) = Some c -> isspace c = false.
Proof.
  unfold rstrip. rewrite last_reverse. apply lstrip_head.
Qed.

Lemma rstrip_fixed (s : str) :
  (forall c, last s = Some c -> isspace c = false) -> rstrip s = s.
Proof.
  intros H. unfold rstrip. rewrite lstrip_fixed; [apply reverse_involutive|].
  intros c Hc. apply H. by rewrite <- head_reverse.
Qed.

Lemma rstrip_app_whitespace (s post : str) :
  whitespace post -> rstrip (s ++ post) = rstrip s.
Proof.
  intros H. unfold rstrip. rewrite reverse_app.
  rewrite lstrip_app_whitespace; [reflexivity | by apply whitespace_rev].
Qed.

Lemma rstrip_head (s : str) (c : N) :
  head (rstrip s) = Some c -> head s = Some c.
Proof.
  destruct (rstrip_split s) as [post [Hs _]].
  intros H. rewrite Hs. destruct (rstrip s); [discriminate | exact H].
Qed.

(** What [strip] returns is the text without the whitespace around it. *)
Lemma strip_trimmed (raw : str) : trimmed_of raw (strip raw).
Proof.
  unfold strip.
  destruct (lstrip_split raw) as [pre [Hraw Hpre]].
  destruct (rstrip_split (lstrip raw)) as [post [Hmid Hpost]].
  exists pre, post. repeat split; try assumption.
  - rewrite <- Hmid. exact Hraw.
  - intros c Hc. apply (lstrip_head raw). by apply rstrip_head.
  - apply rstrip_last.
Qed.

(** And nothing else is. *)
Lemma trimmed_strip (raw s : str) : trimmed_of raw s -> s = strip raw.
Proof.
  intros (pre & post & -> & Hpre & Hpost & Hh & Hl).
  unfold strip. rewrite lstrip_app_whitespace by assumption.
  destruct s as [|c s].
  - simpl. rewrite lstrip_whitespace by assumption. reflexivity.
  - rewrite lstrip_fixed.
    + rewrite rstrip_app_whitespace by assumption.
      symmetry. by apply rstrip_fixed.
    + simpl. exact Hh.
Qed.

End Strip.

(** ** The responder, by value *)

Section Responder.

Variable provider : str -> transcript -> result pyval.
Variable G : globals.

Lemma role_of_turn (r c : str) : role_of (turn r c) = Some r.
Proof. unfold role_of, turn. by simplify_map_eq. Qed.

Lemma content_of_turn (r c : str) : content_of (turn r c) = Some c.
Proof. unfold content_of, turn. by simplify_map_eq. Qed.

Lemma starts_with_system_normalized (T : transcript) :
  starts_with_system (normalized T).
Proof.
  destruct T as [|m T]; simpl.
  - apply role_of_turn.
  - case_decide; simpl; [assumption | apply role_of_turn].
Qed.

Lemma normalized_without_system (T : transcript) :
  starts_without_system T -> normalized T = system_turn :: T.
Proof.
  destruct T as [|m T]; simpl; [reflexivity|].
  intros (r & Hr & Hne). case_decide; [congruence | reflexivity].
Qed.

Lemma normalized_with_system (T : transcript) :
  starts_with_system T -> normalized T = T.
Proof.
  destruct T as [|m T]; simpl; [contradiction|].
  intros Hr. case_decide; [reflexivity | contradiction].
Qed.

Lemma starts_without_system_has_role (T : transcript) :
  starts_without_system T -> first_has_role T.
Proof. destruct T; simpl; [trivial|]. intros (r & -> & _). by eexists. Qed.

Lemma starts_with_system_has_role (T : transcript) :
  starts_with_system T -> first_has_role T.
Proof. destruct T; simpl; [trivial|]. intros ->. by eexists. Qed.

(** The branch of the code computes the normalized transcript of the
    specification whenever the first dictionary has a "role" entry. *)
Lemma ensure_system_prompt_normalized (T : transcript) :
  first_has_role T -> ensure_system_prompt T = Ok (normalized T).
Proof.
  destruct T as [|m T]; simpl; [reflexivity|].
  intros [r Hr]. unfold ensure_system_prompt, lacks_system_turn, dict_getitem.
  unfold role_of in *. rewrite Hr. simpl.
  case_bool_decide; case_decide; simpl; congruence.
Qed.

(** Without that entry the subscript raises before anything is sent. *)
Lemma ensure_system_prompt_no_role (m : gmap str str) (T : transcript) :
  role_of m = None ->
  ensure_system_prompt (m :: T) = Raise (KeyError (VStr (lit "role"))).
Proof.
  intros Hr. unfold ensure_system_prompt, lacks_system_turn, dict_getitem.
  unfold role_of in Hr. by rewrite Hr.
Qed.

(** One run of the function, step by step. *)
Lemma get_agent_response_run (T : transcript) (w : world) :
  get_agent_response provider G T w =
    match ensure_system_prompt T with
    | Raise e => (Raise e, w)
    | Ok B =>
        (c <~ provider (MODEL_NAME G) B ;;
         s <~ reply_content c ;;
         Ok (B ++ [turn (lit "assistant") s]),
         send (Call (MODEL_NAME G) B) w)
    end.
Proof.
  unfold get_agent_response, bind, lift, litellm_completion, ret.
  destruct (ensure_system_prompt T) as [B|e]; [|reflexivity].
  destruct (provider (MODEL_NAME G) B) as [c|e]; [|reflexivity].
  simpl. destruct (reply_content c); reflexivity.
Qed.

Lemma ensure_without_system (T : transcript) :
  starts_without_system T -> ensure_system_prompt T = Ok (system_turn :: T).
Proof.
  intros HT. rewrite ensure_system_prompt_normalized
    by (by apply starts_without_system_has_role).
  by rewrite normalized_without_system.
Qed.

Lemma ensure_with_system (T : transcript) :
  starts_with_system T -> ensure_system_prompt T = Ok T.
Proof.
  intros HT. rewrite ensure_system_prompt_normalized
    by (by apply starts_with_system_has_role).
  by rewrite normalized_with_system.
Qed.

(** The request of a run whose first step went through. *)
Lemma wire_after_run (T B : transcript) (w : world) :
  ensure_system_prompt T = Ok B ->
  wire (get_agent_response provider G T w).2 =
    wire w ++ [Call (MODEL_NAME G) B].
Proof. intros HB. rewrite get_agent_response_run, HB. reflexivity. Qed.

(** The value of a run that meets no exception. *)
Lemma result_of_run (T B : transcript) (w : world) (c : pyval) (s : str) :
  ensure_system_prompt T = Ok B ->
  provider (MODEL_NAME G) B = Ok c ->
  reply_content c = Ok s ->
  (get_agent_response provider G T w).1 =
    Ok (B ++ [turn (lit "assistant") s]).
Proof.
  intros HB Hc Hs. rewrite get_agent_response_run, HB. simpl.
  rewrite Hc. simpl. rewrite Hs. reflexivity.
Qed.

(** The value of a run in which reading the response raises. *)
Lemma failure_of_run (T B : transcript) (w : world) (c : pyval) (e : exn) :
  ensure_system_prompt T = Ok B ->
  provider (MODEL_NAME G) B = Ok c ->
  reply_content c = Raise e ->
  get_agent_response provider G T w =
    (Raise e, send (Call (MODEL_NAME G) B) w).
Proof.
  intros HB Hc Hs. rewrite get_agent_response_run, HB. simpl.
  rewrite Hc. simpl. rewrite Hs. reflexivity.
Qed.

(** A run returns nothing but a normalized transcript and an assistant
    turn. *)
Lemma result_of_run_inv (T out : transcript) (w : world) :
  (get_agent_response provider G T w).1 = Ok out ->
  exists B s, ensure_system_prompt T = Ok B /\
              out = B ++ [turn (lit "assistant") s].
Proof.
  rewrite get_agent_response_run.
  destruct (ensure_system_prompt T) as [B|e]; [|discriminate].
  simpl. destruct (provider (MODEL_NAME G) B) as [c|e]; [|discriminate].
  simpl. destruct (reply_content c) as [s|e]; [|discriminate].
  simpl. intros [= <-]. by exists B, s.
Qed.

Lemma starts_with_system_app (B B' : transcript) :
  starts_with_system B -> starts_with_system (B ++ B').
Proof. destruct B; simpl; [contradiction | trivial]. Qed.

Lemma strip_whitespace (raw : str) : whitespace raw -> strip raw = [].
Proof. intros H. unfold strip. by rewrite lstrip_whitespace. Qed.

(** A first dictionary without "role" stops the run before any request. *)
Lemma no_role_no_request (m : gmap str str) (T : transcript) (w : world) :
  role_of m = None ->
  get_agent_response provider G (m :: T) w =
    (Raise (KeyError (VStr (lit "role"))), w).
Proof.
  intros Hm. rewrite get_agent_response_run.
  by rewrite (ensure_system_prompt_no_role m T Hm).
Qed.

Lemma reply_content_top (c : pyval) (raw : str) :
  top_content c (VStr raw) -> reply_content c = Ok (strip raw).
Proof.
  intros (d & dc & rest & dm & -> & Hd & Hdc & Hdm).
  unfold reply_content. simpl. rewrite Hd. simpl. rewrite Hdc. simpl.
  rewrite Hdm. reflexivity.
Qed.

Lemma reply_content_unusable (c : pyval) (e : exn) :
  unusable c e -> reply_content c = Raise e.
Proof.
  destruct 1 as [d Hd | d dc rest dm Hd Hdc Hdm | c Hc].
  - unfold reply_content. simpl. rewrite Hd. reflexivity.
  - unfold reply_content. simpl. rewrite Hd. simpl. rewrite Hdc. simpl.
    rewrite Hdm. reflexivity.
  - destruct Hc as (d & dc & rest & dm & -> & Hd & Hdc & Hdm).
    unfold reply_content. simpl. rewrite Hd. simpl. rewrite Hdc. simpl.
    rewrite Hdm. reflexivity.
Qed.

Lemma top_content_completion_of (v : pyval) : top_content (completion_of v) v.
Proof.
  unfold completion_of. eexists _, _, [], _. split; [reflexivity|].
  split; [by simplify_map_eq|]. split; by simplify_map_eq.
Qed.

End Responder.

(** ** What is sent to the provider *)

(** C1. For a transcript that is empty or whose first turn has a role other
    than "system", the function sends exactly one request, for the configured
    model, whose messages are the default system turn (role "system", content
    [SYSTEM_PROMPT]) followed by the turns of the transcript in their
    order. *)
Theorem default_system_turn_prepended
    (provider : str -> transcript -> result pyval) (G : globals)
    (T : transcript) (w : world) :
  starts_without_system T ->
  ensure_system_prompt T = Ok (system_turn :: T) /\
  wire (get_agent_response provider G T w).2 =
    wire w ++ [Call (MODEL_NAME G) (system_turn :: T)] /\
  role_of system_turn = Some (lit "system") /\
  content_of system_turn = Some SYSTEM_PROMPT.
Proof.
  intros HT. pose proof (ensure_without_system T HT) as HB.
  split; [exact HB|]. split.
  - by apply wire_after_run.
  - split; [apply role_of_turn | apply content_of_turn].
Qed.

Lemma default_system_turn_prepended_witness :
  starts_without_system [user_hi] /\
  wire (get_agent_response hello_provider gpt_4o_mini [user_hi]
          (no_objects ∅)).2 =
    [Call (lit "gpt-4o-mini") [system_turn; user_hi]].
Proof.
  assert (H : starts_without_system [user_hi]).
  { exists (lit "user"). split; [reflexivity | discriminate]. }
  split; [exact H|].
  exact (proj1 (proj2 (default_system_turn_prepended
    hello_provider gpt_4o_mini [user_hi] (no_objects ∅) H))).
Defined.

(** C2. A transcript whose first turn has role "system" is sent as it is: the
    one request carries the transcript itself, with no turn put before it. *)
Theorem system_transcript_sent_unchanged
    (provider : str -> transcript -> result pyval) (G : globals)
    (T : transcript) (w : world) :
  starts_with_system T ->
  ensure_system_prompt T = Ok T /\
  wire (get_agent_response provider G T w).2 =
    wire w ++ [Call (MODEL_NAME G) T].
Proof.
  intros HT. pose proof (ensure_with_system T HT) as HB.
  split; [exact HB | by apply wire_after_run].
Qed.

Lemma system_transcript_sent_unchanged_witness :
  starts_with_system [custom_system; user_hi] /\
  wire (get_agent_response hello_provider gpt_4o_mini
          [custom_system; user_hi] (no_objects ∅)).2 =
    [Call (lit "gpt-4o-mini") [custom_system; user_hi]].
Proof.
  assert (H : starts_with_system [custom_system; user_hi]) by reflexivity.
  split; [exact H|].
  exact (proj2 (system_transcript_sent_unchanged
    hello_provider gpt_4o_mini [custom_system; user_hi] (no_objects ∅) H)).
Defined.

(** C10. Only the first turn is looked at: a transcript whose first turn is
    not a system turn but which has a system turn further on still gets the
    default system turn in front, so the request carries at least two turns
    with role "system". *)
Theorem later_system_turn_not_seen
    (provider : str -> transcript -> result pyval) (G : globals)
    (T : transcript) (w : world) :
  T <> [] ->
  starts_without_system T ->
  system_turns T <> [] ->
  wire (get_agent_response provider G T w).2 =
    wire w ++ [Call (MODEL_NAME G) (system_turn :: T)] /\
  system_turns (system_turn :: T) = system_turn :: system_turns T /\
  2 <= length (system_turns (system_turn :: T)).
Proof.
  intros _ HT Hsys.
  split; [by apply wire_after_run, ensure_without_system|].
  pose proof (role_of_turn (lit "system") SYSTEM_PROMPT) as Hrole.
  assert (Hf : system_turns (system_turn :: T) = system_turn :: system_turns T).
  { unfold system_turns. by rewrite filter_cons_True. }
  split; [exact Hf|].
  rewrite Hf. destruct (system_turns T); [congruence | simpl; lia].
Qed.

Lemma later_system_turn_not_seen_witness :
  ([user_hi; custom_system] <> [] /\
   starts_without_system [user_hi; custom_system] /\
   system_turns [user_hi; custom_system] <> []) /\
  wire (get_agent_response hello_provider gpt_4o_mini
          [user_hi; custom_system] (no_objects ∅)).2 =
    [Call (lit "gpt-4o-mini") [system_turn; user_hi; custom_system]] /\
  2 <= length (system_turns [system_turn; user_hi; custom_system]).
Proof.
  assert (H1 : [user_hi; custom_system] <> []) by discriminate.
  assert (H2 : starts_without_system [user_hi; custom_system]).
  { exists (lit "user"). split; [reflexivity | discriminate]. }
  assert (H3 : system_turns [user_hi; custom_system] <> []).
  { vm_compute. discriminate. }
  split; [auto|].
  destruct (later_system_turn_not_seen hello_provider gpt_4o_mini
    [user_hi; custom_system] (no_objects ∅) H1 H2 H3) as (Hw & _ & Hn).
  split; [exact Hw | exact Hn].
Defined.

(** ** What is returned *)

(** C3. When the first turn has a role and the provider answers with a
    response whose top content can be read, the function returns the
    normalized transcript followed by one turn with role "assistant": the
    turns before it are those of the normalized transcript, in their order,
    and the result is one turn longer. *)
Theorem output_is_normalized_plus_assistant
    (provider : str -> transcript -> result pyval) (G : globals)
    (T : transcript) (w : world) (c : pyval) (s : str) :
  first_has_role T ->
  provider (MODEL_NAME G) (normalized T) = Ok c ->
  reply_content c = Ok s ->
  ensure_system_prompt T = Ok (normalized T) /\
  (get_agent_response provider G T w).1 =
    Ok (normalized T ++ [turn (lit "assistant") s]) /\
  role_of (turn (lit "assistant") s) = Some (lit "assistant") /\
  (forall out, (get_agent_response provider G T w).1 = Ok out ->
     length out = S (length (normalized T)) /\
     take (length (normalized T)) out = normalized T).
Proof.
  intros HT Hc Hs.
  pose proof (ensure_system_prompt_normalized T HT) as HB.
  pose proof (result_of_run provider G T _ w c s HB Hc Hs) as Hrun.
  split; [exact HB|]. split; [exact Hrun|].
  split; [apply role_of_turn|].
  intros out Hout. rewrite Hrun in Hout. injection Hout as <-.
  split.
  - rewrite length_app. simpl. lia.
  - by rewrite take_app_length.
Qed.

Lemma output_is_normalized_plus_assistant_witness :
  (first_has_role [user_hi] /\
   hello_provider (lit "gpt-4o-mini") (normalized [user_hi]) =
     Ok (completion_of (VStr (lit " Hello! "))) /\
   reply_content (completion_of (VStr (lit " Hello! "))) = Ok (lit "Hello!")) /\
  (get_agent_response hello_provider gpt_4o_mini [user_hi] (no_objects ∅)).1 =
    Ok (normalized [user_hi] ++ [turn (lit "assistant") (lit "Hello!")]).
Proof.
  assert (H1 : first_has_role [user_hi]) by (by eexists).
  assert (H2 : hello_provider (MODEL_NAME gpt_4o_mini) (normalized [user_hi]) =
               Ok (completion_of (VStr (lit " Hello! ")))) by reflexivity.
  assert (H3 : reply_content (completion_of (VStr (lit " Hello! "))) =
               Ok (lit "Hello!")) by (vm_compute; reflexivity).
  split; [auto|].
  exact (proj1 (proj2 (output_is_normalized_plus_assistant
    hello_provider gpt_4o_mini [user_hi] (no_objects ∅) _ _ H1 H2 H3))).
Defined.

(** C4. When the top content of the response is the text [raw], the content
    of the appended assistant turn is [raw.strip()], which is [raw] without
    its leading and trailing whitespace, and the only text that is.  For the
    empty transcript and the raw completion " Hello! " the result is the
    default system turn followed by the assistant turn "Hello!". *)
Theorem assistant_content_is_trimmed
    (provider : str -> transcript -> result pyval) (G : globals)
    (T : transcript) (w : world) (c : pyval) (raw : str) :
  first_has_role T ->
  provider (MODEL_NAME G) (normalized T) = Ok c ->
  top_content c (VStr raw) ->
  ((get_agent_response provider G T w).1 =
     Ok (normalized T ++ [turn (lit "assistant") (strip raw)]) /\
   content_of (turn (lit "assistant") (strip raw)) = Some (strip raw) /\
   trimmed_of raw (strip raw) /\
   (forall s, trimmed_of raw s -> s = strip raw)) /\
  (get_agent_response hello_provider G [] w).1 =
    Ok [system_turn; turn (lit "assistant") (lit "Hello!")].
Proof.
  intros HT Hc Hraw. split.
  - split.
    + apply (result_of_run provider G T _ w c); [|exact Hc|].
      * by apply ensure_system_prompt_normalized.
      * by apply reply_content_top.
    + split; [apply content_of_turn|].
      split; [apply strip_trimmed | apply trimmed_strip].
  - rewrite get_agent_response_run. reflexivity.
Qed.

Lemma assistant_content_is_trimmed_witness :
  (first_has_role [] /\
   hello_provider (lit "gpt-4o-mini") (normalized []) =
     Ok (completion_of (VStr (lit " Hello! "))) /\
   top_content (completion_of (VStr (lit " Hello! "))) (VStr (lit " Hello! "))) /\
  (get_agent_response hello_provider gpt_4o_mini [] (no_objects ∅)).1 =
    Ok (normalized [] ++ [turn (lit "assistant") (strip (lit " Hello! "))]) /\
  strip (lit " Hello! ") = lit "Hello!".
Proof.
  assert (H1 : first_has_role []) by exact I.
  assert (H2 : hello_provider (MODEL_NAME gpt_4o_mini) (normalized []) =
               Ok (completion_of (VStr (lit " Hello! ")))) by reflexivity.
  pose proof (top_content_completion_of (VStr (lit " Hello! "))) as H3.
  split; [auto|]. split; [|reflexivity].
  exact (proj1 (proj1 (assistant_content_is_trimmed
    hello_provider gpt_4o_mini [] (no_objects ∅) _ _ H1 H2 H3))).
Defined.

(** ** Responses without a usable completion *)

(** C6, as stated: a response whose content is the empty text would make the
    function fail.  It does not: the function returns. *)
Lemma empty_content_is_returned :
  ~ (forall (provider : str -> transcript -> result pyval) (G : globals)
            (T : transcript) (w : world) (c : pyval),
       provider (MODEL_NAME G) (normalized T) = Ok c ->
       top_content c (VStr []) ->
       exists e, (get_agent_response provider G T w).1 = Raise e).
Proof.
  intros H.
  destruct (H empty_provider gpt_4o_mini [] (no_objects ∅)
              (completion_of (VStr [])) eq_refl
              (top_content_completion_of _)) as [e He].
  rewrite get_agent_response_run in He. discriminate He.
Qed.

(** C6, amended. After the one request, a response with an empty list of
    choices, with a top message without content field, or with a content that
    is [None] makes the function raise the exception of the failed access
    ([IndexError], [KeyError], [AttributeError]) and return nothing; so does
    any other response the content of which cannot be read.  A response whose
    content is empty or blank text is accepted: the function returns the
    normalized transcript and an assistant turn with empty content. *)
Theorem unusable_completion_raises
    (provider : str -> transcript -> result pyval) (G : globals)
    (T : transcript) (w : world) (c : pyval) :
  first_has_role T ->
  provider (MODEL_NAME G) (normalized T) = Ok c ->
  (forall e, unusable c e \/ reply_content c = Raise e ->
     get_agent_response provider G T w =
       (Raise e, send (Call (MODEL_NAME G) (normalized T)) w)) /\
  (forall raw, top_content c (VStr raw) -> whitespace raw ->
     get_agent_response provider G T w =
       (Ok (normalized T ++ [turn (lit "assistant") []]),
        send (Call (MODEL_NAME G) (normalized T)) w)).
Proof.
  intros HT Hc.
  pose proof (ensure_system_prompt_normalized T HT) as HB. split.
  - intros e He. apply (failure_of_run provider G T _ w c e HB Hc).
    destruct He as [He|He]; [by apply reply_content_unusable | exact He].
  - intros raw Hraw Hws.
    rewrite get_agent_response_run, HB. simpl. rewrite Hc. simpl.
    rewrite (reply_content_top c raw Hraw). simpl.
    by rewrite strip_whitespace.
Qed.

Lemma unusable_completion_raises_witness :
  (first_has_role [user_hi] /\
   no_choices_provider (lit "gpt-4o-mini") (normalized [user_hi]) =
     Ok (VDict {[ lit "choices" := VList [] ]})) /\
  get_agent_response no_choices_provider gpt_4o_mini [user_hi] (no_objects ∅) =
    (Raise IndexError,
     send (Call (lit "gpt-4o-mini") (normalized [user_hi])) (no_objects ∅)).
Proof.
  assert (H1 : first_has_role [user_hi]) by (by eexists).
  assert (H2 : no_choices_provider (MODEL_NAME gpt_4o_mini)
                 (normalized [user_hi]) =
               Ok (VDict {[ lit "choices" := VList [] ]})) by reflexivity.
  split; [auto|].
  apply (proj1 (unusable_completion_raises no_choices_provider gpt_4o_mini
                  [user_hi] (no_objects ∅) _ H1 H2)).
  left. apply no_choices. reflexivity.
Defined.

(** ** Configuration *)

(** C7. Importing the module reads [MODEL_NAME] from the environment, as it
    stands once the .env file has been loaded, and keeps the value if there is
    one and "gpt-4o-mini" if there is none.  Every request the function sends
    afterwards names that model, whatever the environment has become by the
    time of the call. *)
Theorem model_name_read_once
    (load_dotenv : gmap str str -> gmap str str)
    (provider : str -> transcript -> result pyval) (w0 : world) :
  let env := load_dotenv (environ w0) in
  let G := Globals (default (lit "gpt-4o-mini") (env !! lit "MODEL_NAME")) in
  import_utils load_dotenv w0 = (Ok G, set_environ env w0) /\
  MODEL_NAME G = match env !! lit "MODEL_NAME" with
                 | Some v => v
                 | None => lit "gpt-4o-mini"
                 end /\
  forall (T : transcript) (w : world),
    (forall c, c ∈ wire (get_agent_response provider G T w).2 ->
       c ∈ wire w \/ call_model c = MODEL_NAME G) /\
    (forall env', 
       (get_agent_response provider G T (set_environ env' w)).1 =
         (get_agent_response provider G T w).1 /\
       wire (get_agent_response provider G T (set_environ env' w)).2 =
         wire (get_agent_response provider G T w).2).
Proof.
  intros env G. split; [reflexivity|]. split.
  { simpl. by destruct (env !! lit "MODEL_NAME"). }
  intros T w. split.
  - intros c. rewrite get_agent_response_run.
    destruct (ensure_system_prompt T) as [B|e]; simpl; [|by left].
    rewrite elem_of_app, list_elem_of_singleton.
    intros [Hc | ->]; [by left | by right].
  - intros env'. rewrite !get_agent_response_run.
    destruct (ensure_system_prompt T); by split.
Qed.

(** ** Normalization twice *)

(** C9. When the first turn has a role, what the first branch of the function
    yields starts with a system turn, and the branch maps it to itself.  So the
    transcript returned by a run is sent as it is when given back to the
    function, by whatever provider it is answered. *)
Theorem normalization_idempotent
    (provider : str -> transcript -> result pyval) (G : globals)
    (T : transcript) (w : world) :
  first_has_role T ->
  (exists B, ensure_system_prompt T = Ok B /\
             starts_with_system B /\
             ensure_system_prompt B = Ok B) /\
  (forall out, (get_agent_response provider G T w).1 = Ok out ->
     ensure_system_prompt out = Ok out /\
     forall provider' G' w',
       wire (get_agent_response provider' G' out w').2 =
         wire w' ++ [Call (MODEL_NAME G') out]).
Proof.
  intros HT.
  pose proof (ensure_system_prompt_normalized T HT) as HB.
  pose proof (starts_with_system_normalized T) as Hsys.
  split.
  - exists (normalized T). split; [exact HB|]. split; [exact Hsys|].
    by apply ensure_with_system.
  - intros out Hout.
    destruct (result_of_run_inv provider G T out w Hout) as (B & s & HB' & ->).
    rewrite HB in HB'. injection HB' as <-.
    assert (Hout' : ensure_system_prompt
                      (normalized T ++ [turn (lit "assistant") s]) =
                    Ok (normalized T ++ [turn (lit "assistant") s])).
    { by apply ensure_with_system, starts_with_system_app. }
    split; [exact Hout'|].
    intros provider' G' w'. by apply wire_after_run.
Qed.

Lemma normalization_idempotent_witness :
  first_has_role [user_hi] /\
  (get_agent_response hello_provider gpt_4o_mini [user_hi] (no_objects ∅)).1 =
    Ok [system_turn; user_hi; turn (lit "assistant") (lit "Hello!")] /\
  ensure_system_prompt
    [system_turn; user_hi; turn (lit "assistant") (lit "Hello!")] =
    Ok [system_turn; user_hi; turn (lit "assistant") (lit "Hello!")].
Proof.
  assert (H1 : first_has_role [user_hi]) by (by eexists).
  assert (H2 : (get_agent_response hello_provider gpt_4o_mini [user_hi]
                  (no_objects ∅)).1 =
               Ok [system_turn; user_hi; turn (lit "assistant") (lit "Hello!")]).
  { rewrite get_agent_response_run. reflexivity. }
  split; [exact H1|]. split; [exact H2|].
  exact (proj1 (proj2 (normalization_idempotent hello_provider gpt_4o_mini
                         [user_hi] (no_objects ∅) H1) _ H2)).
Defined.

(** ** The responder, by reference *)

Section HeapResponder.

Variable provider : str -> transcript -> result pyval.
Variable G : globals.

Lemma kept_refl (w : world) : kept w w.
Proof. by repeat split. Qed.

Lemma kept_trans (w1 w2 w3 : world) : kept w1 w2 -> kept w2 w3 -> kept w1 w3.
Proof.
  intros [[Hd Hl] He] [[Hd' Hl'] He']. repeat split.
  - intros a d H. by apply Hd', Hd.
  - intros a l H. by apply Hl', Hl.
  - congruence.
Qed.

Lemma kept_send (c : call) (w : world) : kept w (send c w).
Proof. by repeat split. Qed.

Lemma fresh_dict (w : world) : dicts w !! fresh (dom (dicts w)) = None.
Proof. apply (not_elem_of_dom (D:=gset loc)), is_fresh. Qed.

Lemma fresh_list (w : world) : lists w !! fresh (dom (lists w)) = None.
Proof. apply (not_elem_of_dom (D:=gset loc)), is_fresh. Qed.

Lemma kept_new_dict (d : gmap str str) (w : world) :
  kept w (Heap.new_dict d w).2.
Proof.
  repeat split; simpl; try done.
  intros a x H. rewrite lookup_insert_ne; [done|].
  intros <-. rewrite fresh_dict in H. discriminate.
Qed.

Lemma kept_new_list (l : list loc) (w : world) :
  kept w (Heap.new_list l w).2.
Proof.
  repeat split; simpl; try done.
  intros a x H. rewrite lookup_insert_ne; [done|].
  intros <-. rewrite fresh_list in H. discriminate.
Qed.

Lemma turns_at_kept (w w' : world) (items : list loc) (T : transcript) :
  kept w w' -> turns_at w items = Some T -> turns_at w' items = Some T.
Proof.
  intros [[Hd _] _]. unfold turns_at. rewrite !mapM_Some.
  intros H. eapply Forall2_impl; [exact H|]. intros a d. apply Hd.
Qed.

Lemma turns_at_app (w : world) (xs ys : list loc) (T U : transcript) :
  turns_at w xs = Some T -> turns_at w ys = Some U ->
  turns_at w (xs ++ ys) = Some (T ++ U).
Proof.
  unfold turns_at. rewrite !mapM_Some. apply Forall2_app.
Qed.

Lemma turns_at_singleton (w : world) (a : loc) (d : gmap str str) :
  dicts w !! a = Some d -> turns_at w [a] = Some [d].
Proof. intros H. unfold turns_at. simpl. by rewrite H. Qed.

Lemma transcript_at_turns (w : world) (a : loc) (T : transcript) :
  Heap.transcript_at w a = Some T <->
  exists items, lists w !! a = Some items /\ turns_at w items = Some T.
Proof.
  unfold Heap.transcript_at, turns_at. split.
  - destruct (lists w !! a) as [items|]; simpl; [|discriminate].
    intros H. by exists items.
  - intros (items & -> & H). exact H.
Qed.

Lemma transcript_at_kept (w w' : world) (a : loc) (T : transcript) :
  kept w w' -> Heap.transcript_at w a = Some T ->
  Heap.transcript_at w' a = Some T.
Proof.
  intros Hk. rewrite !transcript_at_turns. intros (items & Hl & Ht).
  exists items. split; [by apply Hk | by apply (turns_at_kept w)].
Qed.

Lemma turns_at_cons_inv (w : world) (a : loc) (items : list loc)
    (T : transcript) :
  turns_at w (a :: items) = Some T ->
  exists d T', dicts w !! a = Some d /\ turns_at w items = Some T' /\
               T = d :: T'.
Proof.
  unfold turns_at. rewrite mapM_Some. intros H.
  apply Forall2_cons_inv_l in H as (d & T' & Hd & HT & ->).
  exists d, T'. by rewrite mapM_Some.
Qed.

(** The test reads the same role by reference as by value. *)
Lemma heap_lacks_system_turn (w : world) (l : loc) (items : list loc)
    (T : transcript) :
  lists w !! l = Some items -> turns_at w items = Some T ->
  Heap.lacks_system_turn l w = (lacks_system_turn T, w).
Proof.
  intros Hl HT. unfold Heap.lacks_system_turn, bind, Heap.load_list.
  rewrite Hl. destruct items as [|first rest].
  - injection HT as <-. reflexivity.
  - apply turns_at_cons_inv in HT as (d & T' & Hd & _ & ->).
    unfold Heap.load_dict. rewrite Hd. simpl.
    unfold lift, dict_getitem. by destruct (d !! lit "role").
Qed.

Lemma bind_ok {A B} (m : M A) (k : A -> M B) (w w' : world) (a : A) :
  m w = (Ok a, w') -> bind m k w = k a w'.
Proof. intros H. unfold bind. by rewrite H. Qed.

Lemma bind_raise {A B} (m : M A) (k : A -> M B) (w w' : world) (e : exn) :
  m w = (Raise e, w') -> bind m k w = (Raise e, w').
Proof. intros H. unfold bind. by rewrite H. Qed.

Lemma load_list_ok (w : world) (a : loc) (items : list loc) :
  lists w !! a = Some items -> Heap.load_list a w = (Ok items, w).
Proof. intros H. unfold Heap.load_list. by rewrite H. Qed.

(** [xs + ys] by reference: a list that was not there, with the items of
    both, and nothing else touched. *)
Lemma list_add_run (w : world) (xs ys : loc) (l r : list loc) :
  lists w !! xs = Some l -> lists w !! ys = Some r ->
  exists a w',
    Heap.list_add xs ys w = (Ok a, w') /\
    kept w w' /\ wire w' = wire w /\
    lists w !! a = None /\ lists w' !! a = Some (l ++ r).
Proof.
  intros Hx Hy. exists (fresh (dom (lists w))), (Heap.new_list (l ++ r) w).2.
  split; [|split; [|split; [|split]]].
  - unfold Heap.list_add.
    rewrite (bind_ok _ _ w w l (load_list_ok w xs l Hx)).
    rewrite (bind_ok _ _ w w r (load_list_ok w ys r Hy)).
    reflexivity.
  - apply kept_new_list.
  - reflexivity.
  - apply fresh_list.
  - apply lookup_insert_eq.
Qed.

(** A display [[{...}]]: a new dictionary in a new one-item list. *)
Lemma singleton_run (w : world) (d : gmap str str) :
  exists a l w',
    Heap.new_dict d w = (Ok a, (Heap.new_dict d w).2) /\
    Heap.new_list [a] (Heap.new_dict d w).2 = (Ok l, w') /\
    kept w w' /\ wire w' = wire w /\
    dicts w !! a = None /\ dicts w' !! a = Some d /\
    lists w' !! l = Some [a].
Proof.
  exists (fresh (dom (dicts w))), (fresh (dom (lists w))),
         (Heap.new_list [fresh (dom (dicts w))] (Heap.new_dict d w).2).2.
  split; [reflexivity|]. split; [reflexivity|]. split.
  { eapply kept_trans; [apply kept_new_dict | apply kept_new_list]. }
  split; [reflexivity|]. split; [apply fresh_dict|].
  split; apply lookup_insert_eq.
Qed.

(** The first branch by reference: either the caller's list itself, or a new
    list whose items are one new dictionary and then the caller's items. *)
Lemma heap_ensure_system_prompt (w : world) (l : loc) (items : list loc)
    (T : transcript) :
  lists w !! l = Some items -> turns_at w items = Some T ->
  match ensure_system_prompt T with
  | Raise e => Heap.ensure_system_prompt l w = (Raise e, w)
  | Ok B =>
      exists l' w' pre,
        Heap.ensure_system_prompt l w = (Ok l', w') /\
        kept w w' /\ wire w' = wire w /\
        lists w' !! l' = Some (pre ++ items) /\
        turns_at w' (pre ++ items) = Some B /\
        made_after w pre /\
        (l' = l /\ w' = w \/ lists w !! l' = None)
  end.
Proof.
  intros Hl HT.
  pose proof (heap_lacks_system_turn w l items T Hl HT) as Hlacks.
  unfold Heap.ensure_system_prompt, ensure_system_prompt, rbind.
  destruct (lacks_system_turn T) as [[|]|e].
  - rewrite (bind_ok _ _ w w true Hlacks).
    destruct (singleton_run w system_turn)
      as (d & l1 & w1 & Hd & Hl1 & Hk1 & Hw1 & Hfresh & Hd1 & Hl1').
    rewrite (bind_ok _ _ _ _ _ Hd), (bind_ok _ _ _ _ _ Hl1).
    destruct (list_add_run w1 l1 l [d] items Hl1')
      as (l2 & w2 & Hadd & Hk2 & Hw2 & Hnew & Hl2); [by apply Hk1|].
    exists l2, w2, [d].
    assert (Hk : kept w w2) by eauto using kept_trans.
    split; [exact Hadd|]. split; [exact Hk|]. split; [congruence|].
    split; [exact Hl2|]. split; [|split].
    + apply (turns_at_app w2 [d] items [system_turn] T).
      * apply turns_at_singleton. by apply Hk2.
      * by apply (turns_at_kept w).
    + repeat constructor. exact Hfresh.
    + right. destruct (lists w !! l2) as [x|] eqn:Hx; [|reflexivity].
      apply Hk1 in Hx. congruence.
  - rewrite (bind_ok _ _ w w false Hlacks).
    exists l, w, []. split; [reflexivity|]. split; [apply kept_refl|].
    split; [reflexivity|]. split; [exact Hl|]. split; [exact HT|].
    split; [constructor | by left].
  - by rewrite (bind_raise _ _ w w e Hlacks).
Qed.

Lemma litellm_completion_run (w : world) (model : str) (a : loc)
    (B : transcript) :
  Heap.transcript_at w a = Some B ->
  Heap.litellm_completion provider model a w =
    (provider model B, send (Call model B) w).
Proof. intros H. unfold Heap.litellm_completion. by rewrite H. Qed.

Lemma kept_none_dict (w w' : world) (a : loc) :
  kept w w' -> dicts w' !! a = None -> dicts w !! a = None.
Proof.
  intros Hk H. destruct (dicts w !! a) as [d|] eqn:Hd; [|reflexivity].
  apply Hk in Hd. congruence.
Qed.

Lemma kept_none_list (w w' : world) (a : loc) :
  kept w w' -> lists w' !! a = None -> lists w !! a = None.
Proof.
  intros Hk H. destruct (lists w !! a) as [l|] eqn:Hl; [|reflexivity].
  apply Hk in Hl. congruence.
Qed.

(** The run by reference follows the run by value: the same request, the
    same exception or, in a list that was not there before, the same
    transcript; and every object that was there is left as it was. *)
Lemma heap_get_agent_response (w : world) (l : loc) (items : list loc)
    (T : transcript) :
  lists w !! l = Some items -> turns_at w items = Some T ->
  exists w',
    kept w w' /\
    wire w' = wire (get_agent_response provider G T w).2 /\
    match (get_agent_response provider G T w).1 with
    | Raise e => Heap.get_agent_response provider G l w = (Raise e, w')
    | Ok out =>
        exists l' pre d,
          Heap.get_agent_response provider G l w = (Ok l', w') /\
          lists w !! l' = None /\
          lists w' !! l' = Some (pre ++ items ++ [d]) /\
          turns_at w' (pre ++ items ++ [d]) = Some out /\
          made_after w (pre ++ [d])
    end.
Proof.
  intros Hl HT. rewrite get_agent_response_run.
  pose proof (heap_ensure_system_prompt w l items T Hl HT) as He.
  unfold Heap.get_agent_response.
  destruct (ensure_system_prompt T) as [B|e]; cycle 1.
  { exists w. split; [apply kept_refl|]. split; [reflexivity|].
    by rewrite (bind_raise _ _ w w e He). }
  destruct He as (l1 & w1 & pre & He & Hk1 & Hw1 & Hl1 & HB & Hpre & _).
  rewrite (bind_ok _ _ _ _ _ He).
  assert (Hcall : Heap.litellm_completion provider (MODEL_NAME G) l1 w1 =
            (provider (MODEL_NAME G) B, send (Call (MODEL_NAME G) B) w1)).
  { apply litellm_completion_run, transcript_at_turns. eauto. }
  set (w2 := send (Call (MODEL_NAME G) B) w1) in *.
  assert (Hk2 : kept w w2) by (eapply kept_trans; [exact Hk1 | apply kept_send]).
  assert (Hw2 : wire w2 = wire w ++ [Call (MODEL_NAME G) B]).
  { unfold w2. simpl. by rewrite Hw1. }
  cbn [fst snd].
  destruct (provider (MODEL_NAME G) B) as [c|e]; cbn [rbind]; cycle 1.
  { exists w2. split; [exact Hk2|]. split; [exact Hw2|].
    by rewrite (bind_raise _ _ _ _ _ Hcall). }
  rewrite (bind_ok _ _ _ _ _ Hcall).
  destruct (reply_content c) as [s|e] eqn:Hs; cbn [rbind]; cycle 1.
  { exists w2. split; [exact Hk2|]. split; [exact Hw2|].
    by apply bind_raise. }
  rewrite (bind_ok _ _ w2 w2 s) by reflexivity.
  destruct (singleton_run w2 (turn (lit "assistant") s))
    as (d & lt & w3 & Hd & Hlt & Hk3 & Hw3 & Hfresh & Hd3 & Hlt3).
  rewrite (bind_ok _ _ _ _ _ Hd), (bind_ok _ _ _ _ _ Hlt).
  destruct (list_add_run w3 l1 lt (pre ++ items) [d])
    as (l' & w4 & Hadd & Hk4 & Hw4 & Hnew & Hl'); [|exact Hlt3|].
  { apply Hk3. exact Hl1. }
  rewrite (bind_ok _ _ _ _ _ Hadd).
  assert (Hk : kept w w4) by eauto using kept_trans.
  exists w4. split; [exact Hk|]. split; [by rewrite Hw4, Hw3, Hw2|].
  exists l', pre, d. split; [reflexivity|]. split.
  { apply (kept_none_list w w3); eauto using kept_trans. }
  rewrite <- app_assoc in Hl'. split; [exact Hl'|]. split.
  - rewrite app_assoc. apply turns_at_app.
    + apply (turns_at_kept w1); [|exact HB].
      eapply kept_trans; [apply kept_send|]. eauto using kept_trans.
    + apply turns_at_singleton. by apply Hk4.
  - apply Forall_app. split; [exact Hpre|].
    repeat constructor. by apply (kept_none_dict w w2).
Qed.

Lemma wire_of_run (T : transcript) (w : world) :
  wire (get_agent_response provider G T w).2 = wire w \/
  exists B, wire (get_agent_response provider G T w).2 =
              wire w ++ [Call (MODEL_NAME G) B].
Proof.
  rewrite get_agent_response_run.
  destruct (ensure_system_prompt T) as [B|e]; [right; by exists B | by left].
Qed.

End HeapResponder.

(** ** Failure of the provider *)

(** C5. When the request fails, the exception of the provider leaves the
    function as it is, with the detail it carries.  One request has been
    sent and no other; no transcript is returned; the list passed by the
    caller, its dictionaries, and every other object are as they were. *)
Theorem provider_failure_propagates
    (provider : str -> transcript -> result pyval) (G : globals)
    (w : world) (l : loc) (T : transcript) (e : exn) :
  Heap.transcript_at w l = Some T ->
  first_has_role T ->
  provider (MODEL_NAME G) (normalized T) = Raise e ->
  get_agent_response provider G T w =
    (Raise e, send (Call (MODEL_NAME G) (normalized T)) w) /\
  exists w',
    Heap.get_agent_response provider G l w = (Raise e, w') /\
    wire w' = wire w ++ [Call (MODEL_NAME G) (normalized T)] /\
    kept w w' /\
    Heap.transcript_at w' l = Some T.
Proof.
  intros Hat HT He.
  assert (Hv : get_agent_response provider G T w =
               (Raise e, send (Call (MODEL_NAME G) (normalized T)) w)).
  { rewrite get_agent_response_run, (ensure_system_prompt_normalized T HT).
    by rewrite He. }
  split; [exact Hv|].
  pose proof Hat as Hat'.
  apply transcript_at_turns in Hat' as (items & Hl & Hitems).
  destruct (heap_get_agent_response provider G w l items T Hl Hitems)
    as (w' & Hk & Hw & Hrun).
  rewrite Hv in Hw, Hrun. exists w'.
  split; [exact Hrun|]. split; [exact Hw|]. split; [exact Hk|].
  by apply (transcript_at_kept w).
Qed.

Lemma provider_failure_propagates_witness :
  (Heap.transcript_at user_world 1%positive = Some [user_hi] /\
   first_has_role [user_hi] /\
   failing_provider (lit "gpt-4o-mini") (normalized [user_hi]) =
     Raise (ProviderError (lit "AuthenticationError") (lit "invalid api key"))) /\
  get_agent_response failing_provider gpt_4o_mini [user_hi] user_world =
    (Raise (ProviderError (lit "AuthenticationError") (lit "invalid api key")),
     send (Call (lit "gpt-4o-mini") (normalized [user_hi])) user_world).
Proof.
  assert (H1 : Heap.transcript_at user_world 1%positive = Some [user_hi])
    by reflexivity.
  assert (H2 : first_has_role [user_hi]) by (by eexists).
  assert (H3 : failing_provider (MODEL_NAME gpt_4o_mini) (normalized [user_hi]) =
     Raise (ProviderError (lit "AuthenticationError") (lit "invalid api key")))
    by reflexivity.
  split; [auto|].
  exact (proj1 (provider_failure_propagates failing_provider gpt_4o_mini
                  user_world 1%positive [user_hi] _ H1 H2 H3)).
Defined.

(** ** Frame *)

(** C8. A run changes no object that was there: the list of the caller and
    the dictionaries of its turns are as they were, and so are all other
    lists and dictionaries and the environment.  The wire has at most the one
    request more.  When the run returns, the list it returns is one that did
    not exist before; its items are the caller's own items, in their order,
    after at most a new dictionary for the system turn and before a new
    dictionary for the assistant turn, and it stands for the transcript of
    the run by value. *)
Theorem caller_transcript_untouched
    (provider : str -> transcript -> result pyval) (G : globals)
    (w : world) (l : loc) (T : transcript) :
  Heap.transcript_at w l = Some T ->
  exists r w',
    Heap.get_agent_response provider G l w = (r, w') /\
    kept w w' /\
    Heap.transcript_at w' l = Some T /\
    (wire w' = wire w \/
     exists B, wire w' = wire w ++ [Call (MODEL_NAME G) B]) /\
    forall l', r = Ok l' ->
      lists w !! l' = None /\
      exists items pre d out,
        lists w !! l = Some items /\
        lists w' !! l' = Some (pre ++ items ++ [d]) /\
        made_after w (pre ++ [d]) /\
        length pre <= 1 /\
        (get_agent_response provider G T w).1 = Ok out /\
        Heap.transcript_at w' l' = Some out.
Proof.
  intros Hat. pose proof Hat as Hat'.
  apply transcript_at_turns in Hat' as (items & Hl & Hitems).
  destruct (heap_get_agent_response provider G w l items T Hl Hitems)
    as (w' & Hk & Hw & Hrun).
  assert (Hwire : wire w' = wire w \/
                  exists B, wire w' = wire w ++ [Call (MODEL_NAME G) B]).
  { rewrite Hw. apply wire_of_run. }
  destruct ((get_agent_response provider G T w).1) as [out|e] eqn:Hv.
  - destruct Hrun as (l' & pre & d & Hrun & Hnew & Hl' & Hout & Hmade).
    exists (Ok l'), w'. split; [exact Hrun|]. split; [exact Hk|].
    split; [by apply (transcript_at_kept w)|]. split; [exact Hwire|].
    intros ? [= <-]. split; [exact Hnew|].
    exists items, pre, d, out. split; [exact Hl|]. split; [exact Hl'|].
    split; [exact Hmade|]. split; [|split; [reflexivity|]].
    + destruct (result_of_run_inv provider G T out w Hv) as (B & s & HB & ->).
      apply length_mapM in Hitems, Hout.
      rewrite !length_app in Hout. simpl in Hout.
      assert (length B <= S (length T)); [|lia].
      revert HB. unfold ensure_system_prompt, rbind.
      destruct (lacks_system_turn T) as [[|]|]; intros [= <-]; simpl; lia.
    + apply transcript_at_turns. by exists (pre ++ items ++ [d]).
  - exists (Raise e), w'. split; [exact Hrun|]. split; [exact Hk|].
    split; [by apply (transcript_at_kept w)|]. split; [exact Hwire|].
    intros ? [=].
Qed.

Lemma caller_transcript_untouched_witness :
  Heap.transcript_at user_world 1%positive = Some [user_hi] /\
  exists r w',
    Heap.get_agent_response hello_provider gpt_4o_mini 1%positive user_world =
      (r, w') /\
    kept user_world w' /\
    Heap.transcript_at w' 1%positive = Some [user_hi].
Proof.
  assert (H1 : Heap.transcript_at user_world 1%positive = Some [user_hi])
    by reflexivity.
  split; [exact H1|].
  destruct (caller_transcript_untouched hello_provider gpt_4o_mini
              user_world 1%positive [user_hi] H1)
    as (r & w' & Hrun & Hk & Hat & _).
  exists r, w'. auto.
Defined.

(** ** Sample runs *)

Example strip_samples :
  strip (lit " Hello! ") = lit "Hello!" /\
  strip (lit "  a b  ") = lit "a b" /\
  strip [160; 65; 8232; 10]%N = [65%N] /\
  strip (lit "   ") = [] /\
  strip [] = [].
Proof. repeat split. Qed.

Example import_with_variable :
  (import_utils (fun env => env)
     (no_objects {[ lit "MODEL_NAME" := lit "gpt-4o" ]})).1 =
    Ok (Globals (lit "gpt-4o")).
Proof. reflexivity. Qed.

Example import_without_variable :
  (import_utils (fun env => env) (no_objects ∅)).1 = Ok gpt_4o_mini.
Proof. reflexivity. Qed.

Example import_with_empty_variable :
  (import_utils (fun env => env)
     (no_objects {[ lit "MODEL_NAME" := [] ]})).1 = Ok (Globals []).
Proof. reflexivity. Qed.

Example run_on_user_question :
  (get_agent_response hello_provider gpt_4o_mini
     [turn (lit "user") (lit "What can I make with eggs and spinach?")]
     (no_objects ∅)).1 =
    Ok [system_turn;
        turn (lit "user") (lit "What can I make with eggs and spinach?");
        turn (lit "assistant") (lit "Hello!")].
Proof. reflexivity. Qed.

(** By reference, the list returned for a transcript that starts with a
    system turn is new (3) and holds the caller's own dictionaries (1, 2)
    before the new one (3); the caller's list (1) is as it was. *)
Example heap_run_with_system :
  let run := Heap.get_agent_response hello_provider gpt_4o_mini
               1%positive custom_world in
  run.1 = Ok 3%positive /\
  lists run.2 !! 1%positive = Some [1; 2]%positive /\
  lists run.2 !! 3%positive = Some [1; 2; 3]%positive /\
  (role_of <$> dicts run.2 !! 3%positive) = Some (Some (lit "assistant")).
Proof. repeat split; vm_compute; reflexivity. Qed.

(** Without it, a dictionary for the system turn (2) comes first. *)
Example heap_run_without_system :
  let run := Heap.get_agent_response hello_provider gpt_4o_mini
               1%positive user_world in
  run.1 = Ok 5%positive /\
  lists run.2 !! 1%positive = Some [1%positive] /\
  lists run.2 !! 5%positive = Some [2; 1; 3]%positive /\
  (role_of <$> dicts run.2 !! 2%positive) = Some (Some (lit "system")) /\
  (content_of <$> dicts run.2 !! 3%positive) = Some (Some (lit "Hello!")).
Proof. repeat split; vm_compute; reflexivity. Qed.

Example heap_run_failing :
  let run := Heap.get_agent_response failing_provider gpt_4o_mini
               1%positive custom_world in
  run.1 =
    Raise (ProviderError (lit "AuthenticationError") (lit "invalid api key")) /\
  length (wire run.2) = 1 /\
  lists run.2 !! 1%positive = Some [1; 2]%positive /\
  lists run.2 !! 2%positive = None /\
  dicts run.2 !! 3%positive = None.
Proof. repeat split; vm_compute; reflexivity. Qed.

(** ** Further properties of the responder *)

Section Further.

Variable provider : str -> transcript -> result pyval.
Variable G : globals.



Lemma ensure_system_prompt_inv (T B : transcript) :
  ensure_system_prompt T = Ok B ->
  starts_with_system T /\ B = T \/
  starts_without_system T /\ B = system_turn :: T.
Proof.
  unfold ensure_system_prompt, lacks_system_turn, dict_getitem.
  destruct T as [|m T]; simpl.
  - intros [= <-]. by right.
  - unfold role_of. destruct (m !! lit "role") as [r|]; simpl; [|discriminate].
    case_bool_decide as Hr; intros [= <-].
    + right. split; [by exists r | reflexivity].
    + left. split; [|reflexivity]. f_equal.
      by destruct (decide (r = lit "system")).
Qed.


Lemma system_turns_snoc_assistant (B : transcript) (s : str) :
  system_turns (B ++ [turn (lit "assistant") s]) = system_turns B.
Proof.
  unfold system_turns. rewrite filter_app, filter_cons_False, filter_nil.
  - apply app_nil_r.
  - rewrite role_of_turn. discriminate.
Qed.

Lemma strip_nil_whitespace (s : str) : strip s = [] -> whitespace s.
Proof.
  intros H. destruct (strip_trimmed s) as (pre & post & Hs & Hpre & Hpost & _).
  rewrite H in Hs. rewrite Hs. apply Forall_app. by split.
Qed.

(** By reference too, a first dictionary without "role" stops the run with
    nothing done. *)
Lemma heap_no_role_no_request (w : world) (l : loc) (T : transcript) (e : exn) :
  Heap.transcript_at w l = Some T ->
  ensure_system_prompt T = Raise e ->
  Heap.get_agent_response provider G l w = (Raise e, w).
Proof.
  intros Hat He. apply transcript_at_turns in Hat as (items & Hl & Hitems).
  pose proof (heap_ensure_system_prompt w l items T Hl Hitems) as H.
  rewrite He in H. unfold Heap.get_agent_response.
  by apply bind_raise.
Qed.

End Further.

(** X1. When the first dictionary of the transcript has no "role" entry, the
    subscript raises [KeyError('role')] before anything else happens: no
    request is sent and no object is made, by value and by reference. *)
Theorem missing_role_stops_before_request
    (provider : str -> transcript -> result pyval) (G : globals)
    (m : gmap str str) (T : transcript) (w : world) (l : loc) :
  role_of m = None ->
  get_agent_response provider G (m :: T) w =
    (Raise (KeyError (VStr (lit "role"))), w) /\
  (Heap.transcript_at w l = Some (m :: T) ->
   Heap.get_agent_response provider G l w =
     (Raise (KeyError (VStr (lit "role"))), w)).
Proof.
  intros Hm. split.
  - by apply no_role_no_request.
  - intros Hat. apply (heap_no_role_no_request provider G w l (m :: T)).
    + exact Hat.
    + by apply ensure_system_prompt_no_role.
Qed.

Lemma missing_role_stops_before_request_witness :
  role_of roleless = None /\
  get_agent_response hello_provider gpt_4o_mini [roleless] roleless_world =
    (Raise (KeyError (VStr (lit "role"))), roleless_world) /\
  Heap.get_agent_response hello_provider gpt_4o_mini 1%positive roleless_world =
    (Raise (KeyError (VStr (lit "role"))), roleless_world).
Proof.
  assert (H : role_of roleless = None) by reflexivity.
  split; [exact H|].
  destruct (missing_role_stops_before_request hello_provider gpt_4o_mini
              roleless [] roleless_world 1%positive H) as [Hv Hh].
  split; [exact Hv | apply Hh; reflexivity].
Defined.





(** X4. Of the answer, only the text under the first choice counts, and of
    that text only what [strip] leaves: two answers whose first contents
    agree after stripping give the same returned transcript, whatever else
    they hold (further choices, other fields, other whitespace around the
    text), and the same request has been sent. *)
Theorem result_depends_on_stripped_content
    (provider1 provider2 : str -> transcript -> result pyval) (G : globals)
    (T : transcript) (w : world) (c1 c2 : pyval) (raw1 raw2 : str) :
  first_has_role T ->
  provider1 (MODEL_NAME G) (normalized T) = Ok c1 ->
  provider2 (MODEL_NAME G) (normalized T) = Ok c2 ->
  top_content c1 (VStr raw1) ->
  top_content c2 (VStr raw2) ->
  strip raw1 = strip raw2 ->
  get_agent_response provider1 G T w = get_agent_response provider2 G T w.
Proof.
  intros HT H1 H2 Hc1 Hc2 Heq.
  pose proof (ensure_system_prompt_normalized T HT) as HB.
  rewrite !get_agent_response_run, HB, H1, H2. cbn [rbind].
  rewrite (reply_content_top c1 raw1 Hc1), (reply_content_top c2 raw2 Hc2).
  by rewrite Heq.
Qed.

Lemma result_depends_on_stripped_content_witness :
  (first_has_role [user_hi] /\
   strip (lit " Hello! ") = strip ([10; 9]%N ++ lit "Hello!  ")) /\
  get_agent_response hello_provider gpt_4o_mini [user_hi] (no_objects ∅) =
    get_agent_response verbose_provider gpt_4o_mini [user_hi] (no_objects ∅).
Proof.
  assert (H0 : first_has_role [user_hi]) by (by eexists).
  assert (H1 : hello_provider (MODEL_NAME gpt_4o_mini) (normalized [user_hi]) =
               Ok (completion_of (VStr (lit " Hello! ")))) by reflexivity.
  assert (H2 : verbose_provider (MODEL_NAME gpt_4o_mini) (normalized [user_hi]) =
               Ok verbose_completion) by reflexivity.
  pose proof (top_content_completion_of (VStr (lit " Hello! "))) as H3.
  assert (H4 : top_content verbose_completion
                 (VStr ([10; 9]%N ++ lit "Hello!  "))).
  { unfold verbose_completion. eexists _, _, _, _. split; [reflexivity|].
    split; [reflexivity|]. split; reflexivity. }
  assert (H5 : strip (lit " Hello! ") = strip ([10; 9]%N ++ lit "Hello!  "))
    by reflexivity.
  split; [auto|].
  exact (result_depends_on_stripped_content hello_provider verbose_provider
           gpt_4o_mini [user_hi] (no_objects ∅) _ _ _ _ H0 H1 H2 H3 H4 H5).
Defined.

(** X5. Rounds compose: the transcript returned by one run, with whatever
    turns the caller adds after it, is sent as it is by the next run, and the
    next run returns it with one more assistant turn.  The history of the
    earlier round is a prefix of the later one. *)
Theorem second_round_extends_first
    (provider1 provider2 : str -> transcript -> result pyval)
    (G1 G2 : globals) (T U out : transcript) (w1 w2 : world)
    (c : pyval) (s : str) :
  (get_agent_response provider1 G1 T w1).1 = Ok out ->
  provider2 (MODEL_NAME G2) (out ++ U) = Ok c ->
  reply_content c = Ok s ->
  get_agent_response provider2 G2 (out ++ U) w2 =
    (Ok (out ++ U ++ [turn (lit "assistant") s]),
     send (Call (MODEL_NAME G2) (out ++ U)) w2).
Proof.
  intros Hout Hc Hs.
  destruct (result_of_run_inv provider1 G1 T out w1 Hout) as (B & a & HB & ->).
  assert (Hsys : starts_with_system B).
  { destruct (ensure_system_prompt_inv T B HB) as [[H ->]|[_ ->]];
      [exact H | apply role_of_turn]. }
  assert (HB' : ensure_system_prompt ((B ++ [turn (lit "assistant") a]) ++ U) =
                Ok ((B ++ [turn (lit "assistant") a]) ++ U)).
  { by apply ensure_with_system, starts_with_system_app,
      starts_with_system_app. }
  rewrite get_agent_response_run, HB', Hc. cbn [rbind]. rewrite Hs.
  cbn [rbind]. by rewrite <- (app_assoc _ U).
Qed.

Lemma second_round_extends_first_witness :
  get_agent_response verbose_provider gpt_4o_mini
    ([system_turn; user_hi; turn (lit "assistant") (lit "Hello!")] ++ [user_hi])
    (no_objects ∅) =
  (Ok ([system_turn; user_hi; turn (lit "assistant") (lit "Hello!")] ++
       [user_hi] ++ [turn (lit "assistant") (lit "Hello!")]),
   send (Call (lit "gpt-4o-mini")
           ([system_turn; user_hi; turn (lit "assistant") (lit "Hello!")] ++
            [user_hi])) (no_objects ∅)).
Proof.
  assert (H1 : (get_agent_response hello_provider gpt_4o_mini [user_hi]
                  (no_objects ∅)).1 =
               Ok [system_turn; user_hi; turn (lit "assistant") (lit "Hello!")]).
  { rewrite get_agent_response_run. reflexivity. }
  assert (H2 : verbose_provider (MODEL_NAME gpt_4o_mini)
                 ([system_turn; user_hi;
                   turn (lit "assistant") (lit "Hello!")] ++ [user_hi]) =
               Ok verbose_completion) by reflexivity.
  assert (H3 : reply_content verbose_completion = Ok (lit "Hello!"))
    by (vm_compute; reflexivity).
  exact (second_round_extends_first hello_provider verbose_provider
           gpt_4o_mini gpt_4o_mini [user_hi] [user_hi] _
           (no_objects ∅) (no_objects ∅) _ _ H1 H2 H3).
Defined.

(** X6. The returned transcript starts with a system turn, and the run adds
    at most that one: its system turns are those of the input when the input
    starts with one, and the default system turn followed by those of the
    input otherwise.  The assistant turn is never one of them. *)
Theorem system_turns_of_output
    (provider : str -> transcript -> result pyval) (G : globals)
    (T out : transcript) (w : world) :
  (get_agent_response provider G T w).1 = Ok out ->
  starts_with_system out /\
  (starts_with_system T /\ system_turns out = system_turns T \/
   starts_without_system T /\
   system_turns out = system_turn :: system_turns T).
Proof.
  intros Hout.
  destruct (result_of_run_inv provider G T out w Hout) as (B & a & HB & ->).
  rewrite system_turns_snoc_assistant.
  destruct (ensure_system_prompt_inv T B HB) as [[H ->]|[H ->]].
  - split; [by apply starts_with_system_app | by left].
  - split; [apply role_of_turn|]. right. split; [exact H|].
    unfold system_turns. rewrite filter_cons_True; [reflexivity|].
    apply role_of_turn.
Qed.

Lemma system_turns_of_output_witness :
  (get_agent_response hello_provider gpt_4o_mini [user_hi] (no_objects ∅)).1 =
    Ok [system_turn; user_hi; turn (lit "assistant") (lit "Hello!")] /\
  starts_with_system
    [system_turn; user_hi; turn (lit "assistant") (lit "Hello!")].
Proof.
  assert (H : (get_agent_response hello_provider gpt_4o_mini [user_hi]
                 (no_objects ∅)).1 =
              Ok [system_turn; user_hi; turn (lit "assistant") (lit "Hello!")]).
  { rewrite get_agent_response_run. reflexivity. }
  split; [exact H|].
  exact (proj1 (system_turns_of_output hello_provider gpt_4o_mini
                  [user_hi] _ (no_objects ∅) H)).
Defined.

Lemma lacks_system_turn_false (T : transcript) :
  starts_with_system T -> lacks_system_turn T = Ok false.
Proof.
  destruct T as [|m T]; simpl; [contradiction|].
  unfold role_of, dict_getitem. intros ->. reflexivity.
Qed.

(** X7. Which list the provider is handed.  For a transcript that starts
    with a system turn it is the caller's own list object: the branch makes
    nothing and changes nothing.  Otherwise it is a list that did not exist
    before, other than the caller's, standing for the default system turn
    followed by the caller's turns, and the caller's list still stands for
    what it stood for. *)
Theorem basis_list_identity (w : world) (l : loc) (T : transcript) :
  Heap.transcript_at w l = Some T ->
  (starts_with_system T -> Heap.ensure_system_prompt l w = (Ok l, w)) /\
  (starts_without_system T ->
   exists l' w',
     Heap.ensure_system_prompt l w = (Ok l', w') /\
     l' <> l /\ lists w !! l' = None /\
     Heap.transcript_at w' l' = Some (system_turn :: T) /\
     Heap.transcript_at w' l = Some T /\
     kept w w' /\ wire w' = wire w).
Proof.
  intros Hat. pose proof Hat as Hat'.
  apply transcript_at_turns in Hat' as (items & Hl & Hitems). split.
  - intros HT. unfold Heap.ensure_system_prompt.
    rewrite (bind_ok _ _ w w false); [reflexivity|].
    rewrite (heap_lacks_system_turn w l items T Hl Hitems).
    by rewrite lacks_system_turn_false.
  - intros HT.
    pose proof (heap_ensure_system_prompt w l items T Hl Hitems) as H.
    rewrite (ensure_without_system T HT) in H.
    destruct H as (l' & w' & pre & Hrun & Hk & Hw & Hl' & HB & _ & Hnew).
    assert (Hfresh : lists w !! l' = None).
    { destruct Hnew as [[-> ->]|Hnew]; [|exact Hnew]. exfalso.
      rewrite Hl in Hl'. injection Hl' as Hl'.
      apply length_mapM in Hitems, HB. rewrite <- Hl' in HB.
      simpl in HB. lia. }
    exists l', w'. split; [exact Hrun|]. split; [congruence|].
    split; [exact Hfresh|]. split.
    { apply transcript_at_turns. by exists (pre ++ items). }
    split; [by apply (transcript_at_kept w)|]. by split.
Qed.

Lemma basis_list_identity_witness :
  Heap.transcript_at custom_world 1%positive = Some [custom_system; user_hi] /\
  Heap.ensure_system_prompt 1%positive custom_world =
    (Ok 1%positive, custom_world).
Proof.
  assert (H : Heap.transcript_at custom_world 1%positive =
              Some [custom_system; user_hi]) by reflexivity.
  split; [exact H|].
  apply (proj1 (basis_list_identity custom_world 1%positive _ H)).
  reflexivity.
Defined.

(** X8. The content of the assistant turn is empty exactly when the text of
    the answer is empty or made of whitespace only; such an answer is not
    turned into an error. *)
Theorem blank_completion_gives_empty_turn
    (provider : str -> transcript -> result pyval) (G : globals)
    (T : transcript) (w : world) (c : pyval) (raw : str) :
  first_has_role T ->
  provider (MODEL_NAME G) (normalized T) = Ok c ->
  top_content c (VStr raw) ->
  exists out a,
    (get_agent_response provider G T w).1 = Ok out /\
    last out = Some a /\
    content_of a = Some (strip raw) /\
    (content_of a = Some [] <-> whitespace raw).
Proof.
  intros HT Hc Hraw.
  exists (normalized T ++ [turn (lit "assistant") (strip raw)]),
         (turn (lit "assistant") (strip raw)).
  split.
  { apply (result_of_run provider G T _ w c); [|exact Hc|].
    - by apply ensure_system_prompt_normalized.
    - by apply reply_content_top. }
  split; [apply last_snoc|]. rewrite content_of_turn.
  split; [reflexivity|]. split.
  - intros [= H]. by apply strip_nil_whitespace.
  - intros H. by rewrite strip_whitespace.
Qed.

Lemma blank_completion_gives_empty_turn_witness :
  (first_has_role [user_hi] /\ whitespace (lit "  ")) /\
  exists out a,
    (get_agent_response blank_provider gpt_4o_mini [user_hi]
       (no_objects ∅)).1 = Ok out /\
    last out = Some a /\ content_of a = Some [].
Proof.
  assert (H1 : first_has_role [user_hi]) by (by eexists).
  assert (H2 : blank_provider (MODEL_NAME gpt_4o_mini) (normalized [user_hi]) =
               Ok (completion_of (VStr (lit "  ")))) by reflexivity.
  pose proof (top_content_completion_of (VStr (lit "  "))) as H3.
  assert (H4 : whitespace (lit "  ")) by (repeat constructor).
  split; [auto|].
  destruct (blank_completion_gives_empty_turn blank_provider gpt_4o_mini
              [user_hi] (no_objects ∅) _ _ H1 H2 H3)
    as (out & a & Hout & Hlast & _ & Hiff).
  exists out, a. split; [exact Hout|]. split; [exact Hlast|].
  apply Hiff. exact H4.
Defined.
